(** * Cell-range helpers of [utils.py]

    A shallow embedding of the pure helpers of the gspread wrapper
    ([_get_col_letter], [_build_column_keys], [_build_value_range],
    [_build_col_range]) together with the few Python primitives they use
    ([divmod], string indexing, [str.upper], [str.format], [len]), and of
    the worksheet methods built on them ([find_last_col], [find_last_row],
    [dict_fill], [list_fill], [fill_headers], [build_sheet_by_keys]) as
    programs over the calls they make to the wrapped library.

    Conventions of the embedding:
    - a Python [int] is a [Z] (Python integers are unbounded);
    - a Python byte string ([str]) is a [string];
    - a raised exception is the left summand of [result];
    - the interpreter's recursion limit is not modelled. *)

From Stdlib Require Import ZArith List String Ascii Bool Lia.
From Stdlib Require Import DecimalString DecimalPos DecimalZ.
From Equations Require Import Equations.
From Equations.Prop Require Import Logic.
Import ListNotations.

Local Open Scope string_scope.
Local Open Scope Z_scope.

(** ** Python primitives *)

Module Py.

(** The exceptions that the modelled fragment can raise. *)
Inductive exn : Type :=
| ValueError (msg : string)
| IndexError (msg : string)
| KeyError (key : string).

(** A computation either raises ([inl]) or returns ([inr]). *)
Definition result (A : Type) : Type := (exn + A)%type.

Definition ret {A : Type} (a : A) : result A := inr a.
Definition raise {A : Type} (e : exn) : result A := inl e.

Definition bind {A B : Type} (m : result A) (k : A -> result B) : result B :=
  match m with
  | inl e => inl e
  | inr a => k a
  end.

(** Values that are handed to [str.format] in [utils.py]. *)
Inductive value : Type :=
| Str (s : string)
| Int (n : Z).

(** [divmod(a, b)] for a non-zero [b]: floor division, the remainder has
    the sign of the divisor. *)
Definition divmod (a b : Z) : Z * Z := (a / b, a mod b).

(** [str(n)] for an integer: decimal digits, a leading [-] when negative. *)
Definition str_of_int (n : Z) : string :=
  NilZero.string_of_int (Z.to_int n).

(** [format(v, '')]: what a replacement field without a format spec
    inserts. *)
Definition str_of_value (v : value) : string :=
  match v with
  | Str s => s
  | Int n => str_of_int n
  end.

(** [s[i]]: a one-character string; negative indices count from the end,
    anything outside [-len(s) .. len(s)-1] raises [IndexError]. *)
Definition getitem (s : string) (i : Z) : result string :=
  let n := Z.of_nat (String.length s) in
  let k := if i <? 0 then i + n else i in
  if (0 <=? k) && (k <? n) then
    match String.get (Z.to_nat k) s with
    | Some c => ret (String c "")
    | None => raise (IndexError "string index out of range")
    end
  else raise (IndexError "string index out of range").

(** [c.upper()] on one byte: only [a]..[z] change (byte strings in the
    default locale). *)
Definition upper_ascii (c : ascii) : ascii :=
  if (Ascii.leb "a" c && Ascii.leb c "z")%bool
  then ascii_of_N (N_of_ascii c - 32)
  else c.

(** [s.upper()]. *)
Fixpoint upper (s : string) : string :=
  match s with
  | EmptyString => EmptyString
  | String c rest => String (upper_ascii c) (upper rest)
  end.

(** Keyword arguments of a call, in the order written. *)
Definition kwargs : Type := list (string * value).

Fixpoint lookup (name : string) (kw : kwargs) : result value :=
  match kw with
  | [] => raise (KeyError name)
  | (k, v) :: rest => if String.eqb k name then ret v else lookup name rest
  end.

(** [tpl.format] applied to keyword arguments [kw], for templates made of literal text and named
    replacement fields [{name}] (the only templates of [utils.py]).
    [field] is [Some name] while the scanner is inside braces.  Brace
    escapes, conversions and format specs are not part of the model. *)
Fixpoint format_from (tpl : string) (field : option string) (kw : kwargs)
  : result string :=
  match tpl with
  | EmptyString =>
      match field with
      | None => ret EmptyString
      | Some _ =>
          raise (ValueError "Single '{' encountered in format string")
      end
  | String c rest =>
      match field with
      | None =>
          if Ascii.eqb c "{" then format_from rest (Some EmptyString) kw
          else if Ascii.eqb c "}" then
            raise (ValueError "Single '}' encountered in format string")
          else bind (format_from rest None kw)
                    (fun out => ret (String c out))
      | Some name =>
          if Ascii.eqb c "}" then
            bind (lookup name kw) (fun v =>
            bind (format_from rest None kw) (fun out =>
            ret (str_of_value v ++ out)))
          else format_from rest (Some (name ++ String c EmptyString)) kw
      end
  end.

Definition format (tpl : string) (kw : kwargs) : result string :=
  format_from tpl None kw.

(** [len(xs)] of a list. *)
Definition len {A : Type} (xs : list A) : Z := Z.of_nat (List.length xs).

End Py.

Import Py.

Declare Scope py_scope.
Delimit Scope py_scope with py.
Notation "x <- m ;; k" := (bind m (fun x => k))
  (at level 61, m at next level, right associativity) : py_scope.
Local Open Scope py_scope.

(** ** The helpers of [utils.py] *)

Definition mapping : string := "ABCDEFGHIJKLMNOPQRSTUVWXYZ".
Definition base : Z := 26.

(** [_get_col_letter(index)], utils.py lines 38-53. *)
Equations? _get_col_letter (index : Z) : result string
  by wf (Z.to_nat index) lt :=
  _get_col_letter index with inspect (index <? 0) := {
    | exist _ true _ =>
        raise (ValueError "Index value must be greater than 0")
    | exist _ false Hneg with inspect (divmod index base) := {
      | exist _ (quotient, remainder) Hdm with inspect (quotient >? 0) := {
        | exist _ true Hq =>
            prefix <- _get_col_letter (quotient - 1) ;;
            letter <- getitem mapping remainder ;;
            ret (prefix ++ letter)
        | exist _ false _ => getitem mapping remainder } } }.
Proof.
  (* the recursive call is made on a smaller index *)
  unfold base in *.
  apply Z.ltb_ge in Hneg. apply Z.gtb_lt in Hq.
  assert (index / 26 <= index) by (apply Z.div_le_upper_bound; lia).
  lia.
Qed.

(** [_build_column_keys(values)], utils.py lines 56-68. *)
Definition _build_column_keys {A : Type} (values : list A) : result string :=
  let cell_range := "A1:{col_letter}1" in
  let value := len values - 1 in
  cell_letter <- _get_col_letter value ;;
  format cell_range [("col_letter", Str cell_letter)].

(** [_build_value_range(values, current_row)], utils.py lines 71-81. *)
Definition _build_value_range {A : Type} (values : list A) (current_row : Z)
  : result string :=
  end_cell_letter <- _get_col_letter (len values - 1) ;;
  format "A{current_row}:{end_col}{end_row}"
         [("current_row", Int current_row);
          ("end_col", Str end_cell_letter);
          ("end_row", Int current_row)].

(** [_build_col_range(values, column_letter)], utils.py lines 84-93. *)
Definition _build_col_range {A : Type} (values : list A)
  (column_letter : string) : result string :=
  let end_row_num := len values + 1 in
  cell_list <- format "{col_letter}2:{col_letter}{row_num}"
                      [("col_letter", Str (upper column_letter));
                       ("row_num", Int end_row_num)] ;;
  ret cell_list.

(** ** Vocabulary of the specification *)

(** The pattern [^[A-Z]+$]: a non-empty string of upper-case letters. *)
Definition is_upper_letter (c : ascii) : bool :=
  (Ascii.leb "A" c && Ascii.leb c "Z")%bool.

Fixpoint all_upper_letters (s : string) : bool :=
  match s with
  | EmptyString => true
  | String c rest => is_upper_letter c && all_upper_letters rest
  end.

Definition is_column_label (s : string) : bool :=
  match s with
  | EmptyString => false
  | String _ _ => all_upper_letters s
  end.

(** The order on labels: by length first, then lexicographically. *)
Definition label_ltb (s t : string) : bool :=
  (String.length s <? String.length t)%nat
  || ((String.length s =? String.length t)%nat && String.ltb s t).

(** [rec_call callee caller]: the body of [_get_col_letter], run on
    [caller], reaches its recursive call, and the argument of that call is
    [callee]. *)
Definition rec_call (callee caller : Z) : Prop :=
  (caller <? 0) = false /\
  (fst (divmod caller base) >? 0) = true /\
  callee = fst (divmod caller base) - 1.

(** The letter that [mapping] holds at position [r]. *)
Definition letter (r : Z) : ascii := ascii_of_N (65 + Z.to_N r).

(** The number that a label denotes when [A] .. [Z] are the digits
    1 .. 26 (most significant digit first). *)
Fixpoint bijective_value_from (acc : Z) (s : string) : Z :=
  match s with
  | EmptyString => acc
  | String c rest =>
      bijective_value_from (26 * acc + (Z.of_N (N_of_ascii c) - 64)) rest
  end.

Definition bijective_value (s : string) : Z := bijective_value_from 0 s.

(** ** The worksheet wrapper *)

(** [GoogleWorksheetWrapper.find_last_col(headers)], utils.py lines
    128-133; the method does not touch the worksheet. *)
Definition find_last_col {A : Type} (headers : list A) : result string :=
  _get_col_letter (len headers - 1).

(** The wrapped library is outside the repository: a method of its
    worksheet object is a [call], a program of the wrapper is a tree of
    calls, and a [worksheet] answers the calls. *)
Module Sheet.

(** A cell object of the library: a position and a mutable value. *)
Record cell : Type := Cell { cell_row : Z; cell_col : Z; cell_value : value }.

(** The worksheet methods that [utils.py] calls, indexed by the type of
    what they return. *)
Inductive call : Type -> Type :=
| col_values (col : Z) : call (list value)
| row_values (row : Z) : call (list value)
| range (name : string) : call (list cell)
| update_cells (cell_list : list cell) : call unit.

(** What a method of the wrapper can raise: an exception of the helpers,
    an unbound name, a missing dictionary key, or whatever the library
    raised. *)
Inductive failure : Type :=
| Helper (e : Py.exn)
| NameError (name : string)
| KeyError (key : value)
| LibraryError (msg : string).

(** A wrapper method: returns, raises, or calls the worksheet and goes on
    with the answer. *)
Inductive prog (A : Type) : Type :=
| Ret (a : A)
| Raise (e : failure)
| Do (X : Type) (c : call X) (k : X -> prog A).

Arguments Ret {A} a.
Arguments Raise {A} e.
Arguments Do {A X} c k.

Fixpoint and_then {A B : Type} (p : prog A) (f : A -> prog B) : prog B :=
  match p with
  | Ret a => f a
  | Raise e => Raise e
  | Do c k => Do c (fun x => and_then (k x) f)
  end.

(** One call of a worksheet method. *)
Definition perform {X : Type} (c : call X) : prog X := Do c Ret.

(** A helper's result inside a wrapper method. *)
Definition lift {A : Type} (r : Py.result A) : prog A :=
  match r with
  | inl e => Raise (Helper e)
  | inr a => Ret a
  end.

(** Reading a name that is bound neither in the function nor in the
    module nor among the builtins. *)
Definition unbound {A : Type} (name : string) : prog A :=
  Raise (NameError name).

(** A worksheet: for each call, the answer (or the library's error) and
    the worksheet afterwards. *)
Record worksheet (W : Type) : Type :=
  { respond : forall X : Type, call X -> W -> (string + X) * W }.

Arguments respond {W} _ {X} _ _.

(** A call that reached the library. *)
Inductive event : Type :=
| Called (X : Type) (c : call X).

Arguments Called {X} c.

(** What a run leaves behind: the outcome, the worksheet and the calls
    made, oldest first. *)
Record run_result (W A : Type) : Type :=
  { outcome : failure + A; final : W; trace : list event }.

Arguments outcome {W A} _.
Arguments final {W A} _.
Arguments trace {W A} _.

Fixpoint run {W A : Type} (ws : worksheet W) (p : prog A) (w : W)
  : run_result W A :=
  match p with
  | Ret a => {| outcome := inr a; final := w; trace := [] |}
  | Raise e => {| outcome := inl e; final := w; trace := [] |}
  | Do c k =>
      match respond ws c w with
      | (inl msg, w') =>
          {| outcome := inl (LibraryError msg); final := w';
             trace := [Called c] |}
      | (inr x, w') =>
          let r := run ws (k x) w' in
          {| outcome := outcome r; final := final r;
             trace := Called c :: trace r |}
      end
  end.

(** The names of the ranges asked for, and the cell lists written. *)
Definition range_of (e : event) : option string :=
  match e with
  | Called (range name) => Some name
  | Called _ => None
  end.

Definition write_of (e : event) : option (list cell) :=
  match e with
  | Called (update_cells cell_list) => Some cell_list
  | Called _ => None
  end.

Fixpoint collect {A B : Type} (f : A -> option B) (xs : list A) : list B :=
  match xs with
  | [] => []
  | x :: rest =>
      match f x with
      | Some b => b :: collect f rest
      | None => collect f rest
      end
  end.

Definition ranges_of (t : list event) : list string := collect range_of t.
Definition writes_of (t : list event) : list (list cell) := collect write_of t.

End Sheet.

Import Sheet.

Declare Scope sheet_scope.
Delimit Scope sheet_scope with sheet.
Notation "x <- m ;; k" := (Sheet.and_then m (fun x => k))
  (at level 61, m at next level, right associativity) : sheet_scope.

(** [==] on cell contents. *)
Definition value_eqb (a b : value) : bool :=
  match a, b with
  | Str s, Str t => String.eqb s t
  | Int n, Int m => Z.eqb n m
  | _, _ => false
  end.

(** A dictionary, as its items. *)
Definition dict : Type := list (value * value).

(** [item[key]]. *)
Fixpoint dict_getitem (item : dict) (key : value) : prog value :=
  match item with
  | [] => Raise (Sheet.KeyError key)
  | (k, v) :: rest =>
      if value_eqb k key then Ret v else dict_getitem rest key
  end.

(** [not x] for an optional list argument: [None] and the empty list are
    false. *)
Definition is_falsy {A : Type} (x : option (list A)) : bool :=
  match x with
  | Some (_ :: _) => false
  | _ => true
  end.

Definition list_of {A : Type} (x : option (list A)) : list A :=
  match x with
  | Some xs => xs
  | None => []
  end.

(** [for cell, value in zip(cells, values): cell.value = value]: the cell
    list after the loop.  The loop stops at the shorter list. *)
Fixpoint assign (cells : list cell) (values : list value) : list cell :=
  match cells, values with
  | c :: cells', v :: values' =>
      Cell (cell_row c) (cell_col c) v :: assign cells' values'
  | _, _ => cells
  end.

(** [find_last_row(col_value)], utils.py lines 135-139. *)
Definition find_last_row (col_value : Z) : prog Z :=
  (vs <- perform (col_values col_value) ;;
   Ret (len vs))%sheet.

(** [dict_fill(data)], utils.py lines 141-153.  The name [values] of its
    loop is bound nowhere. *)
Definition dict_fill (data : dict) : prog unit :=
  (n <- find_last_row 1 ;;
   let last_row := n + 1 in
   cell_range <- lift (_build_value_range data last_row) ;;
   cells <- perform (range cell_range) ;;
   values <- unbound "values" ;;
   perform (update_cells (assign cells values)))%sheet.

(** [list_fill(data, _range)], utils.py lines 166-177. *)
Definition list_fill (data : list value) (_range : string) : prog unit :=
  (n <- find_last_row 1 ;;
   let last_row := n + 1 in
   cell_range <- lift (_build_value_range data last_row) ;;
   cells <- perform (range cell_range) ;;
   perform (update_cells (assign cells data)))%sheet.

(** [fill_headers(header_list)], utils.py lines 179-187. *)
Definition fill_headers (header_list : list value) : prog (list value) :=
  (header_range <- lift (_build_column_keys header_list) ;;
   _ <- list_fill header_list header_range ;;
   Ret header_list)%sheet.

(** [[item[key] for key in headers if key in keys]], utils.py line 206. *)
Fixpoint select_values (item : dict) (headers keys : list value)
  : prog (list value) :=
  match headers with
  | [] => Ret []
  | key :: rest =>
      if existsb (value_eqb key) keys then
        (v <- dict_getitem item key ;;
         vs <- select_values item rest keys ;;
         Ret (v :: vs))%sheet
      else select_values item rest keys
  end.

(** The range name computed inside the loop of [build_sheet_by_keys],
    utils.py lines 202-205. *)
Definition row_range_string {A : Type} (headers : list A) (row : Z)
  : result string :=
  let range_string := "A{row}:{end_col}{row}" in
  cell_letter <- _get_col_letter (len headers - 1) ;;
  format range_string [("row", Int row); ("end_col", Str cell_letter)].

(** The loop of [build_sheet_by_keys] over [enumerate(data, start=row)],
    utils.py lines 201-209. *)
Fixpoint build_rows (headers keys : list value) (row : Z) (data : list dict)
  : prog unit :=
  match data with
  | [] => Ret tt
  | item :: rest =>
      (name <- lift (row_range_string headers row) ;;
       cells <- perform (range name) ;;
       values <- select_values item headers keys ;;
       _ <- perform (update_cells (assign cells values)) ;;
       build_rows headers keys (row + 1) rest)%sheet
  end.

(** [build_sheet_by_keys(data, start_row, keys, headers)], utils.py lines
    189-209.  The keys are only asked for membership. *)
Definition build_sheet_by_keys (data : list dict) (start_row : Z)
  (keys headers : option (list value)) : prog unit :=
  (headers <- (if is_falsy headers then perform (row_values 1)
               else fill_headers (list_of headers)) ;;
   let keys := if is_falsy keys then headers else list_of keys in
   build_rows headers keys start_row data)%sheet.

(** [key in item] for a dictionary. *)
Definition dict_has_key (item : dict) (key : value) : bool :=
  existsb (fun kv => value_eqb (fst kv) key) item.

(** The headers that the comprehension of [build_sheet_by_keys] keeps. *)
Definition wanted_headers (headers keys : list value) : list value :=
  filter (fun key => existsb (value_eqb key) keys) headers.

(** A small in-memory worksheet to run the wrapper on: it holds column A,
    has the header row [name, city], hands out two blank cells for every
    range and appends the first written value to column A. *)
Definition memory_sheet : worksheet (list value) :=
  {| respond := fun X (c : call X) (w : list value) =>
       match c in call X return (string + X) * list value with
       | col_values _ => (inr w, w)
       | row_values _ => (inr [Str "name"; Str "city"], w)
       | range _ => (inr [Cell 0 0 (Str ""); Cell 0 1 (Str "")], w)
       | update_cells cell_list =>
           (inr tt, (w ++ List.map cell_value (firstn 1 cell_list))%list)
       end |}.

(** Whether a string contains a colon. *)
Fixpoint has_colon (s : string) : bool :=
  match s with
  | EmptyString => false
  | String c rest => Ascii.eqb c ":" || has_colon rest
  end.

(** The least index whose label has [n] letters (for [n >= 1]). *)
Fixpoint first_index_of_length (n : nat) : Z :=
  match n with
  | O => -1
  | S m => 26 * (first_index_of_length m + 1)
  end.

(** ** Sanity checks against the docstrings *)

Example get_col_letter_28 : _get_col_letter (len (List.seq 0 29) - 1) = inr "AC".
Proof. reflexivity. Qed.

Example build_column_keys_29 :
  _build_column_keys (List.seq 0 29) = inr "A1:AC1".
Proof. reflexivity. Qed.

(** ** The body of [_get_col_letter] *)

(** The function satisfies the equation that the source text reads. *)
Lemma _get_col_letter_body (index : Z) :
  _get_col_letter index =
    if index <? 0 then
      raise (ValueError "Index value must be greater than 0")
    else
      let (quotient, remainder) := divmod index base in
      if quotient >? 0 then
        prefix <- _get_col_letter (quotient - 1) ;;
        letter <- getitem mapping remainder ;;
        ret (prefix ++ letter)
      else getitem mapping remainder.
Proof.
  funelim (_get_col_letter index); unfold divmod;
    repeat match goal with
           | E : (_ <? _) = _ |- _ => rewrite E
           | E : (_ >? _) = _ |- _ => rewrite E
           end; reflexivity.
Qed.

(** [mapping[r]] never raises for a remainder of a division by 26. *)
Lemma getitem_mapping (r : Z) :
  0 <= r < 26 -> getitem mapping r = inr (String (letter r) "").
Proof.
  intros Hr.
  assert (Hn : (Z.to_nat r < 26)%nat) by lia.
  rewrite <- (Z2Nat.id r) by lia.
  generalize dependent (Z.to_nat r); intros n Hn.
  do 26 (destruct n as [|n]; [reflexivity|]).
  lia.
Qed.

Lemma get_col_letter_neg (index : Z) :
  index < 0 ->
  _get_col_letter index = inl (ValueError "Index value must be greater than 0").
Proof.
  intros H. rewrite _get_col_letter_body.
  apply Z.ltb_lt in H. rewrite H. reflexivity.
Qed.

Lemma get_col_letter_small (index : Z) :
  0 <= index < 26 ->
  _get_col_letter index = inr (String (letter index) "").
Proof.
  intros H. rewrite _get_col_letter_body.
  replace (index <? 0) with false by (symmetry; apply Z.ltb_ge; lia).
  unfold divmod, base.
  rewrite Z.div_small, Z.mod_small by lia.
  cbn. apply getitem_mapping; lia.
Qed.

Lemma get_col_letter_step (index : Z) (p : string) :
  26 <= index ->
  _get_col_letter (index / 26 - 1) = inr p ->
  _get_col_letter index = inr (p ++ String (letter (index mod 26)) "").
Proof.
  intros H Hp. rewrite _get_col_letter_body.
  replace (index <? 0) with false by (symmetry; apply Z.ltb_ge; lia).
  unfold divmod, base.
  assert (Hq : 0 < index / 26) by (apply Z.div_str_pos; lia).
  replace (index / 26 >? 0) with true by (symmetry; apply Z.gtb_lt; lia).
  rewrite Hp. cbn [bind].
  rewrite getitem_mapping by (apply Z.mod_pos_bound; lia).
  reflexivity.
Qed.

(** ** Facts about strings and the label order *)

Section StringFacts.

Lemma length_append (s t : string) :
  String.length (s ++ t) = (String.length s + String.length t)%nat.
Proof. induction s as [|c s IH]; cbn; [reflexivity | now rewrite IH]. Qed.

Lemma append_empty_r (s : string) : s ++ "" = s.
Proof. induction s as [|c s IH]; cbn; [reflexivity | now rewrite IH]. Qed.

Lemma ascii_compare_refl (c : ascii) : Ascii.compare c c = Eq.
Proof. unfold Ascii.compare. apply N.compare_refl. Qed.

Lemma compare_refl (s : string) : String.compare s s = Eq.
Proof.
  induction s as [|c s IH]; cbn; [reflexivity|].
  now rewrite ascii_compare_refl.
Qed.

Lemma compare_append_same (p a b : string) :
  String.compare (p ++ a) (p ++ b) = String.compare a b.
Proof.
  induction p as [|c p IH]; cbn; [reflexivity|].
  now rewrite ascii_compare_refl.
Qed.

Lemma compare_append_lt (s t a b : string) :
  String.length s = String.length t ->
  String.compare s t = Lt ->
  String.compare (s ++ a) (t ++ b) = Lt.
Proof.
  revert t; induction s as [|c s IH]; intros [|d t] Hlen Hlt;
    cbn in *; try discriminate.
  destruct (Ascii.compare c d); try discriminate; [|reflexivity].
  apply IH; [congruence | assumption].
Qed.

Lemma label_ltb_irrefl (s : string) : label_ltb s s = false.
Proof.
  unfold label_ltb, String.ltb.
  now rewrite Nat.ltb_irrefl, Nat.eqb_refl, compare_refl.
Qed.

Lemma label_ltb_shorter (s t : string) :
  (String.length s < String.length t)%nat -> label_ltb s t = true.
Proof.
  intros H. unfold label_ltb.
  apply Nat.ltb_lt in H. now rewrite H.
Qed.

Lemma label_ltb_last (p : string) (a b : ascii) :
  Ascii.compare a b = Lt ->
  label_ltb (p ++ String a "") (p ++ String b "") = true.
Proof.
  intros H. unfold label_ltb, String.ltb.
  rewrite !length_append, Nat.eqb_refl, compare_append_same.
  cbn. rewrite H. apply orb_true_r.
Qed.

Lemma label_ltb_snoc (s t : string) (a b : ascii) :
  label_ltb s t = true ->
  label_ltb (s ++ String a "") (t ++ String b "") = true.
Proof.
  unfold label_ltb, String.ltb. intros H.
  rewrite !length_append. cbn [String.length].
  apply orb_true_iff in H. destruct H as [H | H].
  - apply Nat.ltb_lt in H.
    replace (_ <? _)%nat with true by (symmetry; apply Nat.ltb_lt; lia).
    reflexivity.
  - apply andb_true_iff in H. destruct H as [Hlen Hlt].
    apply Nat.eqb_eq in Hlen.
    destruct (String.compare s t) eqn:Hc; try discriminate.
    rewrite (compare_append_lt s t _ _ Hlen Hc).
    rewrite Hlen, Nat.eqb_refl. apply orb_true_r.
Qed.

Lemma letter_code (r : Z) : 0 <= r < 26 -> N_of_ascii (letter r) = (65 + Z.to_N r)%N.
Proof. intros H. unfold letter. apply N_ascii_embedding. lia. Qed.

Lemma letter_compare (r r' : Z) :
  0 <= r -> r < r' -> r' < 26 ->
  Ascii.compare (letter r) (letter r') = Lt.
Proof.
  intros H0 H1 H2. unfold Ascii.compare.
  rewrite !letter_code by lia. apply N.compare_lt_iff. lia.
Qed.

Lemma letter_upper (r : Z) : 0 <= r < 26 -> is_upper_letter (letter r) = true.
Proof.
  intros H. unfold is_upper_letter, Ascii.leb, Ascii.compare.
  rewrite letter_code by lia.
  change (N_of_ascii "A") with 65%N. change (N_of_ascii "Z") with 90%N.
  destruct (N.compare_spec 65 (65 + Z.to_N r)) as [E|E|E]; try lia;
    destruct (N.compare_spec (65 + Z.to_N r) 90) as [F|F|F];
    try lia; reflexivity.
Qed.

Lemma all_upper_letters_append (s t : string) :
  all_upper_letters (s ++ t) = all_upper_letters s && all_upper_letters t.
Proof.
  induction s as [|c s IH]; cbn; [reflexivity|].
  now rewrite IH, andb_assoc.
Qed.

Lemma is_column_label_snoc (s : string) (c : ascii) :
  is_column_label s = true -> is_upper_letter c = true ->
  is_column_label (s ++ String c "") = true.
Proof.
  destruct s as [|d s]; [discriminate|]. cbn [is_column_label append].
  intros Hs Hc.
  change (String d (s ++ String c "")) with (String d s ++ String c "").
  rewrite all_upper_letters_append, Hs. cbn. now rewrite Hc.
Qed.

End StringFacts.

(** ** What [_get_col_letter] returns *)

(** On every non-negative index the function returns a well-formed label. *)
Lemma get_col_letter_returns (index : Z) :
  0 <= index ->
  exists s, _get_col_letter index = inr s /\ is_column_label s = true.
Proof.
  revert index. apply (Zlt_0_ind (fun index =>
    exists s, _get_col_letter index = inr s /\ is_column_label s = true)).
  intros index IH Hpos.
  destruct (Z_lt_ge_dec index 26) as [Hlt | Hge].
  - exists (String (letter index) ""). split.
    + apply get_col_letter_small; lia.
    + cbn. rewrite letter_upper by lia. reflexivity.
  - assert (Hq : 0 < index / 26) by (apply Z.div_str_pos; lia).
    assert (Hle : index / 26 <= index) by (apply Z.div_le_upper_bound; lia).
    destruct (IH (index / 26 - 1)) as [p [Hp Hlab]]; [lia|].
    exists (p ++ String (letter (index mod 26)) ""). split.
    + apply get_col_letter_step; [lia | exact Hp].
    + apply is_column_label_snoc; [exact Hlab|].
      apply letter_upper, Z.mod_pos_bound; lia.
Qed.

(** Labels grow strictly with the index. *)
Lemma get_col_letter_lt (j : Z) :
  0 <= j ->
  forall i, 0 <= i < j ->
  exists s t, _get_col_letter i = inr s /\ _get_col_letter j = inr t /\
              label_ltb s t = true.
Proof.
  revert j. apply (Zlt_0_ind (fun j => forall i, 0 <= i < j ->
    exists s t, _get_col_letter i = inr s /\ _get_col_letter j = inr t /\
                label_ltb s t = true)).
  intros j IH Hj i Hij.
  destruct (Z_lt_ge_dec j 26) as [Hlt | Hge].
  - (* both labels have one letter *)
    exists (String (letter i) ""), (String (letter j) "").
    rewrite !get_col_letter_small by lia. repeat split.
    apply (label_ltb_last "" (letter i) (letter j)).
    apply letter_compare; lia.
  - assert (Hqj : 0 < j / 26) by (apply Z.div_str_pos; lia).
    assert (Hlej : j / 26 <= j) by (apply Z.div_le_upper_bound; lia).
    destruct (Z_lt_ge_dec i 26) as [Hi | Hi].
    + (* one letter against at least two *)
      destruct (get_col_letter_returns (j / 26 - 1)) as [p [Hp Hlab]]; [lia|].
      exists (String (letter i) ""), (p ++ String (letter (j mod 26)) "").
      rewrite get_col_letter_small by lia.
      rewrite (get_col_letter_step j p) by (lia || assumption).
      repeat split. apply label_ltb_shorter.
      rewrite length_append. destruct p; [discriminate | cbn; lia].
    + assert (Hqi : 0 < i / 26) by (apply Z.div_str_pos; lia).
      assert (Hqq : i / 26 <= j / 26) by (apply Z.div_le_mono; lia).
      destruct (Z.eq_dec (i / 26) (j / 26)) as [Heq | Hne].
      * (* same prefix, the last letters decide *)
        destruct (get_col_letter_returns (j / 26 - 1)) as [p [Hp _]]; [lia|].
        exists (p ++ String (letter (i mod 26)) ""),
               (p ++ String (letter (j mod 26)) "").
        rewrite (get_col_letter_step i p) by (lia || (rewrite Heq; assumption)).
        rewrite (get_col_letter_step j p) by (lia || assumption).
        repeat split. apply label_ltb_last.
        pose proof (Z.mod_pos_bound i 26 ltac:(lia)).
        pose proof (Z.mod_pos_bound j 26 ltac:(lia)).
        pose proof (Z.div_mod i 26 ltac:(lia)).
        pose proof (Z.div_mod j 26 ltac:(lia)).
        apply letter_compare; lia.
      * (* the prefixes are already ordered *)
        destruct (IH (j / 26 - 1) ltac:(lia) (i / 26 - 1) ltac:(lia))
          as [p [q [Hp [Hq Hlt]]]].
        exists (p ++ String (letter (i mod 26)) ""),
               (q ++ String (letter (j mod 26)) "").
        rewrite (get_col_letter_step i p) by (lia || assumption).
        rewrite (get_col_letter_step j q) by (lia || assumption).
        repeat split. apply label_ltb_snoc, Hlt.
Qed.

(** ** Bijective base-26 numerals *)

Lemma bijective_value_from_snoc (s : string) (c : ascii) (acc : Z) :
  bijective_value_from acc (s ++ String c "") =
    26 * bijective_value_from acc s + (Z.of_N (N_of_ascii c) - 64).
Proof.
  revert acc; induction s as [|d s IH]; intros acc; cbn; [reflexivity|].
  apply IH.
Qed.

Lemma get_col_letter_value (index : Z) :
  0 <= index ->
  exists s, _get_col_letter index = inr s /\ bijective_value s = index + 1.
Proof.
  revert index. apply (Zlt_0_ind (fun index =>
    exists s, _get_col_letter index = inr s /\ bijective_value s = index + 1)).
  intros index IH Hpos.
  destruct (Z_lt_ge_dec index 26) as [Hlt | Hge].
  - exists (String (letter index) ""). split.
    + apply get_col_letter_small; lia.
    + unfold bijective_value; cbn [bijective_value_from].
      rewrite letter_code by lia. lia.
  - assert (Hq : 0 < index / 26) by (apply Z.div_str_pos; lia).
    assert (Hle : index / 26 <= index) by (apply Z.div_le_upper_bound; lia).
    destruct (IH (index / 26 - 1)) as [p [Hp Hval]]; [lia|].
    exists (p ++ String (letter (index mod 26)) ""). split.
    + apply get_col_letter_step; [lia | exact Hp].
    + unfold bijective_value in *. rewrite bijective_value_from_snoc, Hval.
      pose proof (Z.mod_pos_bound index 26 ltac:(lia)).
      rewrite letter_code by lia.
      pose proof (Z.div_mod index 26 ltac:(lia)). lia.
Qed.

(** ** The claims *)

(** C1: [_get_col_letter] maps a zero-based column index to its bijective
    base-26 label (the label of [index] denotes [index + 1] when [A] .. [Z]
    are the digits 1 .. 26), and the worked values hold: 0 gives "A", 25
    gives "Z", 26 gives "AA", 27 gives "AB", 51 gives "AZ", 52 gives "BA",
    701 gives "ZZ" and 702 gives "AAA". *)
Theorem get_col_letter_bijective_base26 :
  (forall index : Z, 0 <= index ->
     exists s, _get_col_letter index = inr s /\
               bijective_value s = index + 1) /\
  _get_col_letter 0 = inr "A" /\
  _get_col_letter 25 = inr "Z" /\
  _get_col_letter 26 = inr "AA" /\
  _get_col_letter 27 = inr "AB" /\
  _get_col_letter 51 = inr "AZ" /\
  _get_col_letter 52 = inr "BA" /\
  _get_col_letter 701 = inr "ZZ" /\
  _get_col_letter 702 = inr "AAA".
Proof.
  split; [exact get_col_letter_value|].
  repeat split; reflexivity.
Qed.

Lemma get_col_letter_bijective_base26_witness :
  exists s, _get_col_letter 702 = inr s /\ bijective_value s = 702 + 1.
Proof.
  apply (proj1 get_col_letter_bijective_base26 702). lia.
Defined.

(** C2: for a list of at least one value, [_build_column_keys] returns
    "A1:" followed by the label of column [len values - 1] and "1"; for 29
    values that is "A1:AC1"; for an empty list it raises [ValueError]. *)
Theorem build_column_keys_spec :
  (forall (A : Type) (values : list A), 1 <= len values ->
     exists label, _get_col_letter (len values - 1) = inr label /\
                   _build_column_keys values = inr ("A1:" ++ label ++ "1")) /\
  (forall (A : Type) (values : list A), len values <= 0 ->
     exists msg, _build_column_keys values = inl (ValueError msg)) /\
  _build_column_keys (List.seq 0 29) = inr "A1:AC1".
Proof.
  repeat split.
  - intros A values Hlen.
    destruct (get_col_letter_returns (len values - 1)) as [label [Hl _]];
      [lia|].
    exists label. split; [exact Hl|].
    unfold _build_column_keys. rewrite Hl. reflexivity.
  - intros A values Hlen. eexists.
    unfold _build_column_keys.
    rewrite get_col_letter_neg by lia. reflexivity.
Qed.

Lemma build_column_keys_spec_witness :
  (exists label, _get_col_letter (len [10; 20; 30] - 1) = inr label /\
                 _build_column_keys [10; 20; 30] = inr ("A1:" ++ label ++ "1")) /\
  (exists msg, _build_column_keys (@nil Z) = inl (ValueError msg)).
Proof.
  split.
  - apply (proj1 build_column_keys_spec Z [10; 20; 30]). vm_compute. discriminate.
  - apply (proj1 (proj2 build_column_keys_spec) Z []). vm_compute. discriminate.
Defined.

(** C3, as the code has it: for a list of at least one value and any
    integer row, [_build_value_range] returns "A", the row, ":", the label
    of column [len values - 1] and the row again (3 values and row 5 give
    "A5:C5"); it raises [ValueError] exactly when the list is empty.  The
    row is not checked. *)
Theorem build_value_range_spec :
  (forall (A : Type) (values : list A) (row : Z), 1 <= len values ->
     exists label, _get_col_letter (len values - 1) = inr label /\
                   _build_value_range values row =
                     inr ("A" ++ str_of_int row ++ ":" ++ label ++ str_of_int row)) /\
  (forall (A : Type) (values : list A) (row : Z), len values < 1 ->
     exists msg, _build_value_range values row = inl (ValueError msg)) /\
  _build_value_range [10; 20; 30] 5 = inr "A5:C5".
Proof.
  repeat split.
  - intros A values row Hlen.
    destruct (get_col_letter_returns (len values - 1)) as [label [Hl _]];
      [lia|].
    exists label. split; [exact Hl|].
    unfold _build_value_range. rewrite Hl.
    cbn -[str_of_int]. now rewrite append_empty_r.
  - intros A values row Hlen. eexists.
    unfold _build_value_range.
    rewrite get_col_letter_neg by lia. reflexivity.
Qed.

Lemma build_value_range_spec_witness :
  (exists label, _get_col_letter (len [10; 20; 30] - 1) = inr label /\
                 _build_value_range [10; 20; 30] 0 =
                   inr ("A" ++ str_of_int 0 ++ ":" ++ label ++ str_of_int 0)) /\
  (exists msg, _build_value_range (@nil Z) 7 = inl (ValueError msg)).
Proof.
  split.
  - apply (proj1 build_value_range_spec Z [10; 20; 30] 0). vm_compute. discriminate.
  - apply (proj1 (proj2 build_value_range_spec) Z [] 7). reflexivity.
Defined.

(** C3 as stated fails: with three values and row 0 the call returns
    "A0:C0" instead of raising. *)
Lemma build_value_range_row_unchecked :
  _build_value_range [10; 20; 30] 0 = inr "A0:C0" /\
  ~ (forall (values : list Z) (row : Z),
       len values < 1 \/ row < 1 ->
       exists e, _build_value_range values row = inl e).
Proof.
  split; [reflexivity|].
  intros H. destruct (H [10; 20; 30] 0) as [e He]; [right; lia|].
  discriminate He.
Qed.

(** What [_build_col_range] returns, for every list and every label. *)
Lemma build_col_range_value {A : Type} (values : list A) (column_letter : string) :
  _build_col_range values column_letter =
    inr (upper column_letter ++ "2:" ++ upper column_letter
           ++ str_of_int (len values + 1)).
Proof.
  unfold _build_col_range. cbn -[str_of_int upper len].
  now rewrite append_empty_r.
Qed.

(** C4, as the code has it: [_build_col_range] accepts an empty list and
    then returns the upper-cased label followed by "2:", the label again and
    "1"; for the label "A" that is "A2:A1". *)
Theorem build_col_range_empty :
  (forall (A : Type) (column_letter : string),
     _build_col_range (@nil A) column_letter =
       inr (upper column_letter ++ "2:" ++ upper column_letter ++ "1")) /\
  _build_col_range (@nil Z) "A" = inr "A2:A1".
Proof.
  split; [|reflexivity].
  intros A column_letter. apply build_col_range_value.
Qed.

(** C4 as stated fails: for no values and the label "A" the call returns
    "A2:A1", not "A2:A2". *)
Lemma build_col_range_empty_not_A2_A2 :
  _build_col_range (@nil Z) "A" = inr "A2:A1" /\
  _build_col_range (@nil Z) "A" <> inr "A2:A2".
Proof. split; [reflexivity | discriminate]. Qed.

(** C5, as the code has it: [_build_col_range] upper-cases the label and
    returns it followed by "2:", the label again and [len values + 1], so 5
    values and the label "b" give "B2:B6"; it does so for every label
    string and never raises. *)
Theorem build_col_range_spec :
  (forall (A : Type) (values : list A) (column_letter : string),
     _build_col_range values column_letter =
       inr (upper column_letter ++ "2:" ++ upper column_letter
              ++ str_of_int (len values + 1))) /\
  _build_col_range [1; 2; 3; 4; 5] "b" = inr "B2:B6".
Proof.
  split; [|reflexivity].
  intros A values column_letter. apply build_col_range_value.
Qed.

(** C5 as stated fails: the label "a1" does not match [^[A-Z]+$] after
    upper-casing, and the call returns "A12:A16" instead of raising. *)
Lemma build_col_range_label_unchecked :
  is_column_label (upper "a1") = false /\
  _build_col_range [1; 2; 3; 4; 5] "a1" = inr "A12:A16" /\
  ~ (forall (values : list Z) (column_letter : string),
       is_column_label (upper column_letter) = false ->
       exists e, _build_col_range values column_letter = inl e).
Proof.
  split; [reflexivity|]. split; [reflexivity|].
  intros H. destruct (H [1; 2; 3; 4; 5] "a1" eq_refl) as [e He].
  discriminate He.
Qed.

(** C6: [_get_col_letter] is strictly monotone: for 0 <= i < j the label
    of [i] comes before the label of [j] in the order that compares lengths
    first and then letters; hence it is injective on non-negative
    indices. *)
Theorem get_col_letter_strictly_monotone :
  (forall i j : Z, 0 <= i < j ->
     exists s t, _get_col_letter i = inr s /\ _get_col_letter j = inr t /\
                 label_ltb s t = true) /\
  (forall i j : Z, 0 <= i -> 0 <= j ->
     _get_col_letter i = _get_col_letter j -> i = j).
Proof.
  split.
  - intros i j Hij. apply get_col_letter_lt; lia.
  - assert (Hne : forall i j, 0 <= i < j ->
              _get_col_letter i <> _get_col_letter j).
    { intros i j Hij Heq.
      destruct (get_col_letter_lt j ltac:(lia) i Hij) as [s [t [Hs [Ht Hlt]]]].
      rewrite Heq, Ht in Hs. injection Hs as <-.
      rewrite label_ltb_irrefl in Hlt. discriminate. }
    intros i j Hi Hj Heq.
    destruct (Z.lt_trichotomy i j) as [Hlt | [Heq' | Hgt]]; [|assumption|].
    + exfalso. apply (Hne i j); [lia | assumption].
    + exfalso. apply (Hne j i); [lia | now symmetry].
Qed.

Lemma get_col_letter_strictly_monotone_witness :
  (exists s t, _get_col_letter 25 = inr s /\ _get_col_letter 26 = inr t /\
               label_ltb s t = true) /\
  51 = 51.
Proof.
  split.
  - apply (proj1 get_col_letter_strictly_monotone 25 26). lia.
  - apply (proj2 get_col_letter_strictly_monotone 51 51); [lia | lia | reflexivity].
Defined.

(** C7: [_get_col_letter] raises [ValueError] if and only if the index is
    negative (so it does on -1), and on every index >= 0 it returns a
    non-empty string of upper-case letters. *)
Theorem get_col_letter_domain :
  (forall index : Z,
     (exists msg, _get_col_letter index = inl (ValueError msg)) <-> index < 0) /\
  (exists msg, _get_col_letter (-1) = inl (ValueError msg)) /\
  (forall index : Z, 0 <= index ->
     exists s, _get_col_letter index = inr s /\ is_column_label s = true).
Proof.
  split; [|split].
  - intros index; split.
    + intros [msg Hraise].
      destruct (Z_lt_ge_dec index 0) as [Hneg | Hpos]; [assumption|].
      destruct (get_col_letter_returns index) as [s [Hs _]]; [lia|].
      rewrite Hs in Hraise. discriminate.
    + intros Hneg. eexists. apply get_col_letter_neg, Hneg.
  - eexists. apply get_col_letter_neg. lia.
  - exact get_col_letter_returns.
Qed.

Lemma get_col_letter_domain_witness :
  ((exists msg, _get_col_letter (-5) = inl (ValueError msg)) <-> -5 < 0) /\
  (exists s, _get_col_letter 18277 = inr s /\ is_column_label s = true).
Proof.
  split.
  - apply (proj1 get_col_letter_domain (-5)).
  - apply (proj2 (proj2 get_col_letter_domain) 18277). lia.
Defined.

(** C8: for every non-empty list the header range is the row range of
    row 1, and both calls return. *)
Theorem build_column_keys_is_row_1 {A : Type} (values : list A) :
  values <> [] ->
  _build_column_keys values = _build_value_range values 1 /\
  exists range, _build_column_keys values = inr range.
Proof.
  intros Hne.
  assert (Hlen : 1 <= len values).
  { destruct values; [contradiction | unfold len; cbn [List.length]; lia]. }
  destruct (get_col_letter_returns (len values - 1)) as [label [Hl _]]; [lia|].
  unfold _build_column_keys, _build_value_range. rewrite Hl.
  split; [reflexivity | eexists; reflexivity].
Qed.

Lemma build_column_keys_is_row_1_witness :
  _build_column_keys ["name"; "city"] = _build_value_range ["name"; "city"] 1 /\
  exists range, _build_column_keys ["name"; "city"] = inr range.
Proof.
  apply (build_column_keys_is_row_1 ["name"; "city"]). discriminate.
Defined.

(** C9: [_get_col_letter] terminates on every index >= 0: the argument of
    a recursive call is [index / 26 - 1], which lies in [0, index) whenever
    the recursive branch is taken, every chain of recursive calls is finite,
    and the call returns a value. *)
Theorem get_col_letter_terminates (index : Z) :
  0 <= index ->
  (forall callee, rec_call callee index ->
     callee = index / 26 - 1 /\ 0 <= callee < index) /\
  Acc rec_call index /\
  exists s, _get_col_letter index = inr s.
Proof.
  intros Hpos.
  assert (Hdec : forall callee caller, rec_call callee caller ->
            callee = caller / 26 - 1 /\ 0 <= callee < caller).
  { intros callee caller (Hneg & Hq & ->).
    unfold divmod, base in *; cbn [fst] in *.
    apply Z.ltb_ge in Hneg. apply Z.gtb_lt in Hq.
    assert (caller / 26 <= caller) by (apply Z.div_le_upper_bound; lia).
    split; [reflexivity | lia]. }
  split; [|split].
  - intros callee Hcall. apply Hdec, Hcall.
  - apply (well_founded_lt_compat Z Z.to_nat rec_call).
    intros x y Hxy. apply Hdec in Hxy. lia.
  - destruct (get_col_letter_returns index Hpos) as [s [Hs _]].
    exists s. exact Hs.
Qed.

Lemma get_col_letter_terminates_witness :
  (forall callee, rec_call callee 702 ->
     callee = 702 / 26 - 1 /\ 0 <= callee < 702) /\
  Acc rec_call 702 /\
  exists s, _get_col_letter 702 = inr s.
Proof.
  apply (get_col_letter_terminates 702). lia.
Defined.

(** C10: the range builders depend only on the length of the list: two
    lists of the same length give the same result from
    [_build_column_keys], from [_build_value_range] at every row and from
    [_build_col_range] at every label. *)
Theorem range_builders_length_only {A B : Type} (xs : list A) (ys : list B) :
  List.length xs = List.length ys ->
  _build_column_keys xs = _build_column_keys ys /\
  (forall r : Z, _build_value_range xs r = _build_value_range ys r) /\
  (forall L : string, _build_col_range xs L = _build_col_range ys L).
Proof.
  intros Hlen.
  unfold _build_column_keys, _build_value_range, _build_col_range, len.
  rewrite Hlen. repeat split.
Qed.

Lemma range_builders_length_only_witness :
  _build_column_keys [1; 2] = _build_column_keys ["x"; "y"] /\
  (forall r : Z, _build_value_range [1; 2] r = _build_value_range ["x"; "y"] r) /\
  (forall L : string, _build_col_range [1; 2] L = _build_col_range ["x"; "y"] L).
Proof.
  apply (range_builders_length_only [1; 2] ["x"; "y"]). reflexivity.
Defined.

(** ** More about the helpers *)

Section MoreStringFacts.

Lemma append_cancel_l (p a b : string) : p ++ a = p ++ b -> a = b.
Proof.
  induction p as [|c p IH]; cbn; intros H; [exact H|].
  injection H as H. apply IH, H.
Qed.

Lemma append_split_same_length (a b x y : string) :
  String.length a = String.length b ->
  a ++ x = b ++ y -> a = b /\ x = y.
Proof.
  revert b; induction a as [|c a IH]; intros [|d b] Hlen H;
    cbn in *; try discriminate.
  - split; [reflexivity | exact H].
  - injection H as -> H. injection Hlen as Hlen.
    destruct (IH b Hlen H) as [-> ->]. split; reflexivity.
Qed.

Lemma append_cancel_r (a b x : string) : a ++ x = b ++ x -> a = b.
Proof.
  intros H. apply (append_split_same_length a b x x); [|exact H].
  apply (f_equal String.length) in H. rewrite !length_append in H. lia.
Qed.

Lemma string_snoc_inv (s : string) :
  s <> "" -> exists p c, s = p ++ String c "".
Proof.
  induction s as [|d s IH]; intros Hne; [contradiction|].
  destruct s as [|e s].
  - exists "", d. reflexivity.
  - destruct IH as [p [c Hp]]; [discriminate|].
    exists (String d p), c. cbn. now rewrite Hp.
Qed.

Lemma string_snoc_ind (P : string -> Prop) :
  P "" ->
  (forall p c, P p -> P (p ++ String c "")) ->
  forall s, P s.
Proof.
  intros Hnil Hsnoc s.
  remember (String.length s) as n eqn:Hn. revert s Hn.
  induction n as [|n IH]; intros s Hn.
  - destruct s; [exact Hnil | discriminate].
  - destruct (string_snoc_inv s) as [p [c ->]].
    + intros ->. discriminate.
    + apply Hsnoc, IH.
      rewrite length_append in Hn. cbn in Hn. lia.
Qed.

Lemma str_of_int_inj (n m : Z) : str_of_int n = str_of_int m -> n = m.
Proof.
  unfold str_of_int. intros H.
  assert (Hnil : forall z, Z.to_int z <> Decimal.Pos Decimal.Nil /\
                           Z.to_int z <> Decimal.Neg Decimal.Nil).
  { intros [|q|q]; cbn; split; try discriminate;
      intros [= E]; exact (Unsigned.to_uint_nonnil q E). }
  apply (f_equal NilZero.int_of_string) in H.
  rewrite !NilZero.isi in H by apply Hnil.
  injection H as H. apply DecimalZ.to_int_inj, H.
Qed.

Lemma string_of_uint_no_colon (d : Decimal.uint) :
  has_colon (NilEmpty.string_of_uint d) = false.
Proof. induction d; cbn; assumption || reflexivity. Qed.

Lemma str_of_int_no_colon (n : Z) : has_colon (str_of_int n) = false.
Proof.
  unfold str_of_int.
  destruct (Z.to_int n) as [d | d]; cbn; destruct d; cbn;
    try reflexivity; apply string_of_uint_no_colon.
Qed.

Lemma split_at_first_colon (a b x y : string) :
  has_colon a = false -> has_colon b = false ->
  a ++ String ":" x = b ++ String ":" y -> a = b /\ x = y.
Proof.
  revert b; induction a as [|c a IH]; intros [|d b] Ha Hb H; cbn in *.
  - injection H as ->. split; reflexivity.
  - injection H as <- _. cbn in Hb. discriminate.
  - injection H as -> _. cbn in Ha. discriminate.
  - injection H as -> H.
    apply orb_false_iff in Ha, Hb.
    destruct (IH b (proj2 Ha) (proj2 Hb) H) as [-> ->].
    split; reflexivity.
Qed.

Lemma upper_ascii_idempotent (c : ascii) :
  upper_ascii (upper_ascii c) = upper_ascii c.
Proof. destruct c as [[] [] [] [] [] [] [] []]; reflexivity. Qed.

Lemma upper_idempotent (s : string) : upper (upper s) = upper s.
Proof.
  induction s as [|c s IH]; cbn; [reflexivity|].
  now rewrite upper_ascii_idempotent, IH.
Qed.

Lemma upper_ascii_upper_letter (c : ascii) :
  is_upper_letter c = true -> upper_ascii c = c.
Proof. destruct c as [[] [] [] [] [] [] [] []]; cbn; intros H; congruence. Qed.

Lemma upper_all_upper_letters (s : string) :
  all_upper_letters s = true -> upper s = s.
Proof.
  induction s as [|c s IH]; cbn; [reflexivity|].
  intros H. apply andb_true_iff in H. destruct H as [Hc Hs].
  now rewrite upper_ascii_upper_letter, IH.
Qed.

Lemma is_upper_letter_code (c : ascii) :
  is_upper_letter c = true ->
  (65 <= N_of_ascii c <= 90)%N /\ letter (Z.of_N (N_of_ascii c) - 65) = c.
Proof.
  unfold is_upper_letter, Ascii.leb, Ascii.compare.
  change (N_of_ascii "A") with 65%N. change (N_of_ascii "Z") with 90%N.
  intros H. apply andb_true_iff in H. destruct H as [Hlo Hhi].
  assert (Hb : (65 <= N_of_ascii c <= 90)%N).
  { split.
    - destruct (N.compare_spec 65 (N_of_ascii c)); (discriminate || lia).
    - destruct (N.compare_spec (N_of_ascii c) 90); (discriminate || lia). }
  split; [exact Hb|].
  unfold letter.
  replace (65 + Z.to_N (Z.of_N (N_of_ascii c) - 65))%N with (N_of_ascii c)
    by lia.
  apply ascii_N_embedding.
Qed.

End MoreStringFacts.

(** The value that the row builders return once the label is known. *)
Lemma build_value_range_value {A : Type} (values : list A) (row : Z)
  (label : string) :
  _get_col_letter (len values - 1) = inr label ->
  _build_value_range values row =
    inr ("A" ++ str_of_int row ++ ":" ++ label ++ str_of_int row).
Proof.
  intros Hl. unfold _build_value_range. rewrite Hl.
  cbn -[str_of_int]. now rewrite append_empty_r.
Qed.

Lemma build_column_keys_value {A : Type} (values : list A) (label : string) :
  _get_col_letter (len values - 1) = inr label ->
  _build_column_keys values = inr ("A1:" ++ label ++ "1").
Proof.
  intros Hl. unfold _build_column_keys. rewrite Hl. reflexivity.
Qed.

Lemma get_col_letter_inj (i j : Z) (s : string) :
  _get_col_letter i = inr s -> _get_col_letter j = inr s -> i = j.
Proof.
  intros Hi Hj.
  assert (Hpos : forall k, _get_col_letter k = inr s -> 0 <= k).
  { intros k Hk. destruct (Z_lt_ge_dec k 0) as [Hneg|]; [|lia].
    rewrite get_col_letter_neg in Hk by exact Hneg. discriminate. }
  pose proof (Hpos i Hi). pose proof (Hpos j Hj).
  destruct (Z.lt_trichotomy i j) as [Hlt | [Heq | Hgt]]; [|exact Heq|].
  - destruct (get_col_letter_lt j ltac:(lia) i ltac:(lia))
      as [a [b [Ha [Hb Hab]]]].
    rewrite Hi in Ha. rewrite Hj in Hb.
    injection Ha as <-. injection Hb as <-.
    rewrite label_ltb_irrefl in Hab. discriminate.
  - destruct (get_col_letter_lt i ltac:(lia) j ltac:(lia))
      as [a [b [Ha [Hb Hab]]]].
    rewrite Hj in Ha. rewrite Hi in Hb.
    injection Ha as <-. injection Hb as <-.
    rewrite label_ltb_irrefl in Hab. discriminate.
Qed.

(** The builders raise only on the empty list. *)
Lemma get_col_letter_of_len {A : Type} (values : list A) :
  (values = [] /\
   _get_col_letter (len values - 1) =
     inl (ValueError "Index value must be greater than 0")) \/
  (values <> [] /\
   exists label, _get_col_letter (len values - 1) = inr label /\
                 is_column_label label = true).
Proof.
  destruct values as [|v values].
  - left. split; reflexivity.
  - right. split; [discriminate|].
    apply get_col_letter_returns. unfold len. cbn [List.length]. lia.
Qed.

Lemma first_index_of_length_lower (n : nat) : -1 <= first_index_of_length n.
Proof. induction n as [|n IH]; cbn [first_index_of_length]; lia. Qed.

Lemma first_index_of_length_mono (n m : nat) :
  (n <= m)%nat -> first_index_of_length n <= first_index_of_length m.
Proof.
  induction 1 as [|m _ IH]; [lia|].
  pose proof (first_index_of_length_lower m).
  cbn [first_index_of_length]. lia.
Qed.

Lemma get_col_letter_length_bounds (index : Z) :
  0 <= index ->
  exists s, _get_col_letter index = inr s /\
            first_index_of_length (String.length s) <= index
              < first_index_of_length (S (String.length s)).
Proof.
  revert index. apply (Zlt_0_ind (fun index =>
    exists s, _get_col_letter index = inr s /\
              first_index_of_length (String.length s) <= index
                < first_index_of_length (S (String.length s)))).
  intros index IH Hpos.
  destruct (Z_lt_ge_dec index 26) as [Hlt | Hge].
  - exists (String (letter index) ""). split.
    + apply get_col_letter_small; lia.
    + cbn. lia.
  - assert (Hq : 0 < index / 26) by (apply Z.div_str_pos; lia).
    assert (Hle : index / 26 <= index) by (apply Z.div_le_upper_bound; lia).
    destruct (IH (index / 26 - 1)) as [p [Hp Hb]]; [lia|].
    exists (p ++ String (letter (index mod 26)) ""). split.
    + apply get_col_letter_step; [lia | exact Hp].
    + rewrite length_append. cbn [String.length].
      replace (String.length p + 1)%nat with (S (String.length p)) by lia.
      pose proof (Z.mod_pos_bound index 26 ltac:(lia)).
      pose proof (Z.div_mod index 26 ltac:(lia)).
      cbn [first_index_of_length] in *. lia.
Qed.

(** ** Further properties of the helpers *)

(** X1: the number of letters of a label.  The label of an index >= 0 has
    [n] letters exactly when the index lies between the first index of
    length [n] and the first index of length [n + 1] (0, 26, 702, 18278,
    ...). *)
Theorem get_col_letter_length (index : Z) (n : nat) :
  0 <= index ->
  exists s, _get_col_letter index = inr s /\
    (String.length s = n <->
     first_index_of_length n <= index < first_index_of_length (S n)).
Proof.
  intros Hpos.
  destruct (get_col_letter_length_bounds index Hpos) as [s [Hs Hb]].
  exists s. split; [exact Hs|]. split.
  - intros <-. exact Hb.
  - intros Hn.
    destruct (Nat.lt_trichotomy (String.length s) n) as [Hlt | [Heq | Hgt]];
      [|exact Heq|].
    + pose proof (first_index_of_length_mono (S (String.length s)) n Hlt). lia.
    + pose proof (first_index_of_length_mono (S n) (String.length s) Hgt). lia.
Qed.

Lemma get_col_letter_length_witness :
  exists s, _get_col_letter 701 = inr s /\
    (String.length s = 2%nat <->
     first_index_of_length 2 <= 701 < first_index_of_length 3).
Proof. apply (get_col_letter_length 701 2). lia. Defined.

(** X2: every well-formed label is the label of the index it denotes:
    reading a non-empty string of upper-case letters as a bijective
    base-26 numeral and handing that number minus one to
    [_get_col_letter] gives the string back. *)
Theorem get_col_letter_of_bijective_value (s : string) :
  is_column_label s = true ->
  0 <= bijective_value s - 1 /\
  _get_col_letter (bijective_value s - 1) = inr s.
Proof.
  induction s as [|p c IH] using string_snoc_ind; [discriminate|].
  intros Hlab.
  assert (Hall : all_upper_letters p = true /\ is_upper_letter c = true).
  { assert (H : all_upper_letters (p ++ String c "") = true).
    { destruct p; exact Hlab. }
    rewrite all_upper_letters_append in H. apply andb_true_iff in H.
    destruct H as [Hp Hc]. cbn in Hc. rewrite andb_true_r in Hc. now split. }
  destruct Hall as [Hp Hc].
  destruct (is_upper_letter_code c Hc) as [Hcode Hletter].
  unfold bijective_value in *. rewrite bijective_value_from_snoc.
  destruct p as [|d p].
  - cbn [bijective_value_from]. split; [lia|].
    rewrite get_col_letter_small by lia.
    replace (26 * 0 + (Z.of_N (N_of_ascii c) - 64) - 1)
      with (Z.of_N (N_of_ascii c) - 65) by lia.
    now rewrite Hletter.
  - destruct IH as [Hge Hget]; [exact Hp|].
    set (v := bijective_value_from 0 (String d p)) in *.
    set (r := Z.of_N (N_of_ascii c) - 65) in *.
    replace (26 * v + (Z.of_N (N_of_ascii c) - 64) - 1) with (r + v * 26)
      by (unfold r; lia).
    assert (Hr : 0 <= r < 26) by (unfold r; lia).
    split; [lia|].
    assert (Hdiv : (r + v * 26) / 26 = v).
    { rewrite Z.div_add by lia. rewrite Z.div_small by lia. lia. }
    assert (Hmod : (r + v * 26) mod 26 = r).
    { rewrite Z.mod_add by lia. apply Z.mod_small; lia. }
    rewrite (get_col_letter_step (r + v * 26) (String d p)).
    + now rewrite Hmod, Hletter.
    + lia.
    + rewrite Hdiv. exact Hget.
Qed.

Lemma get_col_letter_of_bijective_value_witness :
  0 <= bijective_value "XFD" - 1 /\
  _get_col_letter (bijective_value "XFD" - 1) = inr "XFD".
Proof. apply (get_col_letter_of_bijective_value "XFD"). reflexivity. Defined.

(** X3: [_build_col_range] does not look at the case of the label: two
    labels that agree after upper-casing give the same range. *)
Theorem build_col_range_case_insensitive {A : Type} (values : list A)
  (label1 label2 : string) :
  upper label1 = upper label2 ->
  _build_col_range values label1 = _build_col_range values label2 /\
  _build_col_range values (upper label1) = _build_col_range values label1.
Proof.
  intros H. rewrite !build_col_range_value, upper_idempotent, H.
  split; reflexivity.
Qed.

Lemma build_col_range_case_insensitive_witness :
  _build_col_range [1; 2] "aB" = _build_col_range [1; 2] "Ab" /\
  _build_col_range [1; 2] (upper "aB") = _build_col_range [1; 2] "aB".
Proof.
  apply (build_col_range_case_insensitive [1; 2] "aB" "Ab"). reflexivity.
Defined.

(** X4: the header range tells the number of values: two lists give the
    same result from [_build_column_keys] exactly when they have the same
    length. *)
Theorem build_column_keys_same_iff_length {A B : Type} (xs : list A)
  (ys : list B) :
  _build_column_keys xs = _build_column_keys ys <->
  List.length xs = List.length ys.
Proof.
  split.
  - intros H.
    destruct (get_col_letter_of_len xs) as [[-> Hx] | [Hxne [a [Ha _]]]];
      destruct (get_col_letter_of_len ys) as [[-> Hy] | [Hyne [b [Hb _]]]].
    + reflexivity.
    + rewrite (build_column_keys_value ys b Hb) in H. discriminate H.
    + rewrite (build_column_keys_value xs a Ha) in H. discriminate H.
    + rewrite (build_column_keys_value xs a Ha),
              (build_column_keys_value ys b Hb) in H.
      injection H as H. apply append_cancel_r in H. subst b.
      pose proof (get_col_letter_inj _ _ _ Ha Hb) as E.
      unfold len in E. lia.
  - intros H. unfold _build_column_keys, len. now rewrite H.
Qed.

Lemma build_value_range_inj {A B : Type} (xs : list A) (ys : list B)
  (row1 row2 : Z) (name : string) :
  _build_value_range xs row1 = inr name ->
  _build_value_range ys row2 = inr name ->
  List.length xs = List.length ys /\ row1 = row2.
Proof.
  intros Hx Hy.
  destruct (get_col_letter_of_len xs) as [[-> _] | [_ [a [Ha _]]]];
    [discriminate Hx|].
  destruct (get_col_letter_of_len ys) as [[-> _] | [_ [b [Hb _]]]];
    [discriminate Hy|].
  rewrite (build_value_range_value xs row1 a Ha) in Hx.
  rewrite (build_value_range_value ys row2 b Hb) in Hy.
  rewrite <- Hy in Hx. injection Hx as H.
  apply split_at_first_colon in H; try apply str_of_int_no_colon.
  destruct H as [Hrow H]. apply str_of_int_inj in Hrow. subst row2.
  apply append_cancel_r in H. subst b.
  pose proof (get_col_letter_inj _ _ _ Ha Hb) as E.
  unfold len in E. split; [lia | reflexivity].
Qed.

Lemma build_column_keys_row_1 {A : Type} (values : list A) :
  _build_column_keys values = _build_value_range values 1.
Proof.
  destruct (get_col_letter_of_len values) as [[-> _] | [_ [a [Ha _]]]];
    [reflexivity|].
  rewrite (build_column_keys_value values a Ha).
  rewrite (build_value_range_value values 1 a Ha). reflexivity.
Qed.

(** X5: the row range tells both the row and the number of values: if
    [_build_value_range] returns the same range for two non-empty lists,
    the lists have the same length and the rows are equal. *)
Theorem build_value_range_same {A B : Type} (xs : list A) (ys : list B)
  (row1 row2 : Z) :
  xs <> [] ->
  _build_value_range xs row1 = _build_value_range ys row2 ->
  List.length xs = List.length ys /\ row1 = row2.
Proof.
  intros Hxne H.
  destruct (get_col_letter_of_len xs) as [[-> _] | [_ [a [Ha _]]]];
    [contradiction|].
  pose proof (build_value_range_value xs row1 a Ha) as Hx.
  rewrite Hx in H. symmetry in H.
  exact (build_value_range_inj xs ys row1 row2 _ Hx H).
Qed.

Lemma build_value_range_same_witness :
  List.length [1; 2; 3] = List.length ["a"; "b"; "c"] /\ 4 = 4.
Proof.
  apply (build_value_range_same [1; 2; 3] ["a"; "b"; "c"] 4 4).
  - discriminate.
  - reflexivity.
Defined.

(** X6: for a fixed label the column range tells the number of values:
    [_build_col_range] returns the same range for two lists exactly when
    they have the same length. *)
Theorem build_col_range_same_iff_length {A B : Type} (xs : list A)
  (ys : list B) (column_letter : string) :
  _build_col_range xs column_letter = _build_col_range ys column_letter <->
  List.length xs = List.length ys.
Proof.
  rewrite !build_col_range_value. split.
  - intros H. injection H as H.
    apply append_cancel_l in H.
    change ("2:" ++ upper column_letter ++ str_of_int (len xs + 1))
      with (String "2" (String ":" (upper column_letter ++ str_of_int (len xs + 1)))) in H.
    change ("2:" ++ upper column_letter ++ str_of_int (len ys + 1))
      with (String "2" (String ":" (upper column_letter ++ str_of_int (len ys + 1)))) in H.
    injection H as H. apply append_cancel_l in H.
    apply str_of_int_inj in H. unfold len in H. lia.
  - intros H. unfold len. now rewrite H.
Qed.

(** X7: the label that [find_last_col] returns for a non-empty header list
    is well formed and goes through [_build_col_range] unchanged: the
    column of the range is that label. *)
Theorem find_last_col_feeds_build_col_range {A B : Type} (headers : list A)
  (values : list B) :
  headers <> [] ->
  exists label,
    find_last_col headers = inr label /\
    is_column_label label = true /\
    _build_col_range values label =
      inr (label ++ "2:" ++ label ++ str_of_int (len values + 1)).
Proof.
  intros Hne.
  destruct (get_col_letter_of_len headers) as [[-> _] | [_ [label [Hl Hlab]]]];
    [contradiction|].
  exists label. split; [exact Hl|]. split; [exact Hlab|].
  rewrite build_col_range_value.
  rewrite upper_all_upper_letters; [reflexivity|].
  destruct label; [discriminate | exact Hlab].
Qed.

Lemma find_last_col_feeds_build_col_range_witness :
  exists label,
    find_last_col ["id"; "name"; "city"] = inr label /\
    is_column_label label = true /\
    _build_col_range [10; 20] label =
      inr (label ++ "2:" ++ label ++ str_of_int (len [10; 20] + 1)).
Proof.
  apply (find_last_col_feeds_build_col_range ["id"; "name"; "city"] [10; 20]).
  discriminate.
Defined.

(** ** The worksheet wrapper at work *)

Section Wrapper.

Context {W : Type} (ws : worksheet W).

(** Running [p] and then [f] is running [p], and [f] on what it returned. *)
Lemma run_and_then {A B : Type} (p : prog A) (f : A -> prog B) (w : W) :
  run ws (and_then p f) w =
    match outcome (run ws p w) with
    | inl e =>
        {| outcome := inl e; final := final (run ws p w);
           trace := trace (run ws p w) |}
    | inr a =>
        let r := run ws (f a) (final (run ws p w)) in
        {| outcome := outcome r; final := final r;
           trace := (trace (run ws p w) ++ trace r)%list |}
    end.
Proof.
  revert w; induction p as [a | e | X c k IH]; intros w; cbn [and_then run].
  - cbn. now destruct (run ws (f a) w).
  - reflexivity.
  - destruct (respond ws c w) as [[msg | x] w']; [reflexivity|].
    rewrite IH. cbn [outcome final trace].
    destruct (outcome (run ws (k x) w')); reflexivity.
Qed.

Lemma run_do {A X : Type} (c : call X) (k : X -> prog A) (w w' : W) (x : X) :
  respond ws c w = (inr x, w') ->
  run ws (Do c k) w =
    {| outcome := outcome (run ws (k x) w'); final := final (run ws (k x) w');
       trace := Called c :: trace (run ws (k x) w') |}.
Proof. intros H. cbn [run]. now rewrite H. Qed.

Lemma run_do_error {A X : Type} (c : call X) (k : X -> prog A) (w w' : W)
  (msg : string) :
  respond ws c w = (inl msg, w') ->
  run ws (Do c k) w =
    {| outcome := inl (LibraryError msg); final := w'; trace := [Called c] |}.
Proof. intros H. cbn [run]. now rewrite H. Qed.

End Wrapper.

(** What the loop over [zip(cells, values)] does to the cell list. *)
Lemma assign_length (cells : list cell) (values : list value) :
  List.length (assign cells values) = List.length cells.
Proof.
  revert values; induction cells as [|c cells IH]; intros [|v values];
    cbn; try reflexivity.
  now rewrite IH.
Qed.

(** X8: what the loop [for cell, value in zip(cells, values)] leaves in the
    cell list: as many cells as before, at the same positions; the first
    min(len(cells), len(values)) cells hold the values in order, the cells
    after them are untouched, and surplus values are dropped. *)
Theorem assign_spec (cells : list cell) (values : list value) :
  List.length (assign cells values) = List.length cells /\
  List.map (fun c => (cell_row c, cell_col c)) (assign cells values) =
    List.map (fun c => (cell_row c, cell_col c)) cells /\
  List.map cell_value (firstn (List.length values) (assign cells values)) =
    firstn (List.length cells) values /\
  skipn (List.length values) (assign cells values) =
    skipn (List.length values) cells.
Proof.
  split; [apply assign_length|].
  revert values; induction cells as [|c cells IH]; intros [|v values];
    cbn; try (repeat split; reflexivity).
  destruct (IH values) as (Hpos & Hval & Hrest).
  repeat split; [now rewrite Hpos | now rewrite Hval | exact Hrest].
Qed.

(** X9: empty input writes nothing.  [fill_headers([])] raises
    [ValueError] before any call to the worksheet; [list_fill([], ...)] and
    [dict_fill({})] read column 1 and then raise, without asking for a
    range or updating a cell. *)
Theorem empty_input_writes_nothing {W : Type} (ws : worksheet W) (w : W)
  (_range : string) :
  run ws (fill_headers []) w =
    {| outcome := inl (Helper (ValueError "Index value must be greater than 0"));
       final := w; trace := [] |} /\
  (trace (run ws (list_fill [] _range) w) = [Called (col_values 1)] /\
   (outcome (run ws (list_fill [] _range) w) =
      inl (Helper (ValueError "Index value must be greater than 0")) \/
    exists msg, outcome (run ws (list_fill [] _range) w) =
                  inl (LibraryError msg))) /\
  (trace (run ws (dict_fill []) w) = [Called (col_values 1)] /\
   (outcome (run ws (dict_fill []) w) =
      inl (Helper (ValueError "Index value must be greater than 0")) \/
    exists msg, outcome (run ws (dict_fill []) w) = inl (LibraryError msg))).
Proof.
  split; [reflexivity|].
  unfold list_fill, dict_fill, find_last_row, perform.
  cbn [and_then run].
  destruct (respond ws (col_values 1) w) as [[msg | col] w'].
  - cbn. split; (split; [reflexivity | right; eexists; reflexivity]).
  - cbn. split; (split; [reflexivity | left; reflexivity]).
Qed.

(** X10: [list_fill] writes into the first row after the values of column
    1.  For non-empty data, when the library returns [col] for column 1,
    the range asked for is row [len(col) + 1] (a row >= 1) from column A to
    the column of the last value; when the library returns [cells] for it,
    the calls made are exactly [col_values(1)], [range], and one
    [update_cells] with the data assigned to those cells; and the method
    returns when that update does. *)
Theorem list_fill_writes_next_row {W : Type} (ws : worksheet W) (w w1 : W)
  (data col : list value) (_range : string) :
  data <> [] ->
  respond ws (col_values 1) w = (inr col, w1) ->
  exists label name,
    _get_col_letter (len data - 1) = inr label /\
    name = "A" ++ str_of_int (len col + 1) ++ ":" ++ label
               ++ str_of_int (len col + 1) /\
    1 <= len col + 1 /\
    forall cells w2, respond ws (range name) w1 = (inr cells, w2) ->
      trace (run ws (list_fill data _range) w) =
        [Called (col_values 1); Called (range name);
         Called (update_cells (assign cells data))] /\
      forall w3, respond ws (update_cells (assign cells data)) w2
                   = (inr tt, w3) ->
        outcome (run ws (list_fill data _range) w) = inr tt /\
        final (run ws (list_fill data _range) w) = w3.
Proof.
  intros Hne Hcol.
  destruct (get_col_letter_of_len data) as [[-> _] | [_ [label [Hl _]]]];
    [contradiction|].
  exists label. eexists. split; [exact Hl|]. split; [reflexivity|].
  split; [unfold len; lia|].
  intros cells w2 Hrange.
  unfold list_fill, find_last_row, perform. cbn [and_then].
  rewrite (run_do ws _ _ w w1 col Hcol). cbn [and_then outcome final trace].
  rewrite (build_value_range_value data (len col + 1) label Hl).
  cbn [lift and_then].
  rewrite (run_do ws _ _ w1 w2 cells Hrange). cbn [outcome final trace].
  split.
  - cbn [run].
    destruct (respond ws (update_cells (assign cells data)) w2) as [[m | u] w3];
      reflexivity.
  - intros w3 Hupd. cbn [run]. rewrite Hupd. split; reflexivity.
Qed.

Lemma list_fill_writes_next_row_witness :
  exists label name,
    _get_col_letter (len [Str "ann"; Int 7] - 1) = inr label /\
    name = "A" ++ str_of_int (len [Str "top"] + 1) ++ ":" ++ label
               ++ str_of_int (len [Str "top"] + 1) /\
    1 <= len [Str "top"] + 1 /\
    forall cells w2,
      respond memory_sheet (range name) [Str "top"] = (inr cells, w2) ->
      trace (run memory_sheet (list_fill [Str "ann"; Int 7] "") [Str "top"]) =
        [Called (col_values 1); Called (range name);
         Called (update_cells (assign cells [Str "ann"; Int 7]))] /\
      forall w3,
        respond memory_sheet (update_cells (assign cells [Str "ann"; Int 7])) w2
          = (inr tt, w3) ->
        outcome (run memory_sheet (list_fill [Str "ann"; Int 7] "") [Str "top"])
          = inr tt /\
        final (run memory_sheet (list_fill [Str "ann"; Int 7] "") [Str "top"])
          = w3.
Proof.
  apply (list_fill_writes_next_row memory_sheet [Str "top"] [Str "top"]
           [Str "ann"; Int 7] [Str "top"] "").
  - discriminate.
  - reflexivity.
Defined.

Example list_fill_on_memory_sheet :
  let r := run memory_sheet (list_fill [Str "ann"; Int 7] "") [Str "top"] in
  outcome r = inr tt /\
  final r = [Str "top"; Str "ann"] /\
  trace r = [Called (col_values 1); Called (range "A2:B2");
             Called (update_cells [Cell 0 0 (Str "ann"); Cell 0 1 (Int 7)])].
Proof. repeat split. Qed.

(** X11: where [fill_headers] writes.  [fill_headers] computes the header
    range but [list_fill] does not use the range it is given: for a
    non-empty header list, when the library returns [col] for column 1,
    the only range asked for is the row range of row [len(col) + 1], and
    that is the header range exactly when column 1 is empty. *)
Theorem fill_headers_range {W : Type} (ws : worksheet W) (w w1 : W)
  (header_list col : list value) :
  header_list <> [] ->
  respond ws (col_values 1) w = (inr col, w1) ->
  exists name,
    ranges_of (trace (run ws (fill_headers header_list) w)) = [name] /\
    _build_value_range header_list (len col + 1) = inr name /\
    (_build_column_keys header_list = inr name <-> col = []).
Proof.
  intros Hne Hcol.
  destruct (get_col_letter_of_len header_list)
    as [[-> _] | [_ [label [Hl _]]]]; [contradiction|].
  pose proof (build_value_range_value header_list (len col + 1) label Hl)
    as Hname.
  eexists. split; [|split; [exact Hname|]].
  - unfold fill_headers.
    rewrite (build_column_keys_value header_list label Hl).
    cbn [lift and_then]. rewrite run_and_then.
    assert (Ht : ranges_of (trace (run ws (list_fill header_list
                   ("A1:" ++ label ++ "1")) w)) =
                 ["A" ++ str_of_int (len col + 1) ++ ":" ++ label
                      ++ str_of_int (len col + 1)]).
    { unfold list_fill, find_last_row, perform. cbn [and_then].
      rewrite (run_do ws _ _ w w1 col Hcol).
      cbn [and_then outcome final trace]. rewrite Hname.
      cbn [lift and_then run].
      destruct (respond ws (range _) w1) as [[m | cells] w2];
        [reflexivity|].
      destruct (respond ws (update_cells _) w2) as [[m | u] w3];
        reflexivity. }
    destruct (outcome (run ws (list_fill header_list _) w));
      cbn [trace run]; rewrite ?app_nil_r; exact Ht.
  - rewrite build_column_keys_row_1. split.
    + intros H1.
      destruct (build_value_range_inj header_list header_list 1
                  (len col + 1) _ H1 Hname) as [_ Hrow].
      destruct col; [reflexivity|].
      unfold len in Hrow. cbn [List.length] in Hrow. lia.
    + intros ->. exact Hname.
Qed.

Lemma fill_headers_range_witness :
  exists name,
    ranges_of (trace (run memory_sheet (fill_headers [Str "id"; Str "name"])
                        [Str "old"; Str "rows"])) = [name] /\
    _build_value_range [Str "id"; Str "name"]
      (len [Str "old"; Str "rows"] + 1) = inr name /\
    (_build_column_keys [Str "id"; Str "name"] = inr name <->
     [Str "old"; Str "rows"] = []).
Proof.
  apply (fill_headers_range memory_sheet [Str "old"; Str "rows"]
           [Str "old"; Str "rows"] [Str "id"; Str "name"]).
  - discriminate.
  - reflexivity.
Defined.

Example fill_headers_on_used_sheet :
  ranges_of (trace (run memory_sheet (fill_headers [Str "id"; Str "name"])
                      [Str "old"; Str "rows"])) = ["A3:B3"] /\
  _build_column_keys [Str "id"; Str "name"] = inr "A1:B1".
Proof. split; reflexivity. Qed.

(** X12: [dict_fill] never writes and never returns: on every worksheet
    and every dictionary no [update_cells] call is made and the method
    raises; once the library has returned the column and the cells, what
    it raises is the [NameError] for [values]. *)
Theorem dict_fill_never_writes {W : Type} (ws : worksheet W) (w : W)
  (data : dict) :
  writes_of (trace (run ws (dict_fill data) w)) = [] /\
  (exists e, outcome (run ws (dict_fill data) w) = inl e) /\
  (forall col w1 name cells w2,
     respond ws (col_values 1) w = (inr col, w1) ->
     _build_value_range data (len col + 1) = inr name ->
     respond ws (range name) w1 = (inr cells, w2) ->
     outcome (run ws (dict_fill data) w) = inl (NameError "values")).
Proof.
  unfold dict_fill, find_last_row, perform, unbound. cbn [and_then run].
  destruct (respond ws (col_values 1) w) as [[m | col] w1] eqn:Hcol.
  - cbn. repeat split; [eexists; reflexivity | discriminate].
  - cbn [and_then outcome final trace].
    destruct (_build_value_range data (len col + 1)) as [e | name] eqn:Hname.
    + cbn. repeat split; [eexists; reflexivity|].
      intros col' w1' name' cells w2 [= <- <-]. rewrite Hname. discriminate.
    + cbn [lift and_then run].
      destruct (respond ws (range name) w1) as [[m | cells] w2] eqn:Hrange.
      * cbn. repeat split; [eexists; reflexivity|].
        intros col' w1' name' cells w2' [= <- <-]. rewrite Hname.
        intros [= <-]. rewrite Hrange. discriminate.
      * cbn. repeat split; eexists; reflexivity.
Qed.

Lemma dict_fill_never_writes_witness :
  outcome (run memory_sheet (dict_fill [(Str "name", Str "ann")]) [Str "top"])
    = inl (NameError "values").
Proof.
  apply (proj2 (proj2 (dict_fill_never_writes memory_sheet [Str "top"]
                         [(Str "name", Str "ann")]))
           [Str "top"] [Str "top"] "A2:A2"
           [Cell 0 0 (Str ""); Cell 0 1 (Str "")] [Str "top"]);
    reflexivity.
Defined.

Lemma row_range_string_eq {A : Type} (headers : list A) (row : Z) :
  row_range_string headers row = _build_value_range headers row.
Proof.
  unfold row_range_string, _build_value_range.
  destruct (_get_col_letter (len headers - 1)) as [e | label];
    reflexivity.
Qed.

(** X13: the range name that [build_sheet_by_keys] builds inline for a
    row is the one [_build_value_range] returns for the header list and
    that row, errors included. *)
Theorem row_range_string_is_build_value_range {A : Type} (headers : list A)
  (row : Z) :
  row_range_string headers row = _build_value_range headers row.
Proof. exact (row_range_string_eq headers row). Qed.

Lemma dict_getitem_has_key (item : dict) (key : value) :
  (dict_has_key item key = true /\ exists v, dict_getitem item key = Ret v) \/
  (dict_has_key item key = false /\
   dict_getitem item key = Raise (Sheet.KeyError key)).
Proof.
  induction item as [|[k v] item IH]; cbn.
  - right. split; reflexivity.
  - destruct (value_eqb k key); cbn.
    + left. split; [reflexivity | eexists; reflexivity].
    + exact IH.
Qed.

(** X14: the comprehension [[item[key] for key in headers if key in keys]].
    It looks up, in header order, the headers that are among the keys.  If
    the item has all of them, the result is the list of their values;
    otherwise [KeyError] is raised for the first one that the item
    lacks. *)
Theorem select_values_spec (item : dict) (headers keys : list value) :
  (forallb (dict_has_key item) (wanted_headers headers keys) = true ->
   exists vs,
     select_values item headers keys = Ret vs /\
     List.map Ret vs =
       List.map (dict_getitem item) (wanted_headers headers keys)) /\
  (forall key,
     find (fun k => negb (dict_has_key item k)) (wanted_headers headers keys)
       = Some key ->
     select_values item headers keys = Raise (Sheet.KeyError key)).
Proof.
  unfold wanted_headers.
  induction headers as [|h headers [IHok IHko]]; cbn [filter select_values].
  - split; [intros _; exists []; split; reflexivity | discriminate].
  - destruct (existsb (value_eqb h) keys); [|split; assumption].
    cbn [forallb find List.map].
    destruct (dict_getitem_has_key item h) as [[Hin [v Hv]] | [Hout Hraise]].
    + rewrite Hin, Hv. cbn [negb andb and_then]. split.
      * intros Hall. destruct (IHok Hall) as [vs [Hvs Hmap]].
        exists (v :: vs). rewrite Hvs. cbn. now rewrite Hmap.
      * intros key Hkey. now rewrite (IHko key Hkey).
    + rewrite Hout, Hraise. cbn [negb andb and_then]. split.
      * discriminate.
      * intros key [= <-]. reflexivity.
Qed.

Lemma select_values_spec_witness :
  (exists vs,
     select_values [(Str "name", Str "ann"); (Str "age", Int 7)]
                   [Str "age"; Str "city"; Str "name"] [Str "name"; Str "age"]
       = Ret vs /\
     List.map Ret vs =
       List.map (dict_getitem [(Str "name", Str "ann"); (Str "age", Int 7)])
         (wanted_headers [Str "age"; Str "city"; Str "name"]
                         [Str "name"; Str "age"])) /\
  select_values [(Str "name", Str "ann")] [Str "name"; Str "city"; Str "zip"]
                [Str "zip"; Str "city"; Str "name"]
    = Raise (Sheet.KeyError (Str "city")).
Proof.
  split.
  - apply (proj1 (select_values_spec
                    [(Str "name", Str "ann"); (Str "age", Int 7)]
                    [Str "age"; Str "city"; Str "name"]
                    [Str "name"; Str "age"])).
    reflexivity.
  - apply (proj2 (select_values_spec [(Str "name", Str "ann")]
                    [Str "name"; Str "city"; Str "zip"]
                    [Str "zip"; Str "city"; Str "name"])).
    reflexivity.
Defined.

Lemma select_values_no_call (item : dict) (headers keys : list value) :
  (exists vs, select_values item headers keys = Ret vs) \/
  (exists key, select_values item headers keys = Raise (Sheet.KeyError key)).
Proof.
  induction headers as [|h headers IH]; cbn [select_values].
  - left. eexists; reflexivity.
  - destruct (existsb (value_eqb h) keys); [|exact IH].
    destruct (dict_getitem_has_key item h) as [[_ [v ->]] | [_ ->]];
      cbn [and_then].
    + destruct IH as [[vs ->] | [key ->]]; cbn [and_then].
      * left. eexists; reflexivity.
      * right. eexists; reflexivity.
    + right. eexists; reflexivity.
Qed.

(** The calls of the loop of [build_sheet_by_keys]. *)
Lemma build_rows_calls {W : Type} (ws : worksheet W)
  (headers keys : list value) (data : list dict) :
  forall (row : Z) (w : W),
  exists k : nat,
    (k <= List.length data)%nat /\
    List.map (@inr Py.exn string)
        (ranges_of (trace (run ws (build_rows headers keys row data) w))) =
      List.map (fun i => _build_value_range headers (row + Z.of_nat i))
               (List.seq 0 k) /\
    (List.length (writes_of (trace (run ws (build_rows headers keys row data) w)))
       <= k)%nat /\
    (outcome (run ws (build_rows headers keys row data) w) = inr tt ->
     k = List.length data /\
     List.length (writes_of (trace (run ws (build_rows headers keys row data) w)))
       = List.length data).
Proof.
  induction data as [|item rest IH]; intros row w.
  - exists 0%nat. cbn. repeat split; lia.
  - cbn [build_rows]. rewrite row_range_string_eq.
    destruct (_build_value_range headers row) as [e | name] eqn:Hname.
    { exists 0%nat. cbn. repeat split; solve [lia | congruence]. }
    assert (Hone : List.map (@inr Py.exn string) [name] =
                   List.map (fun i => _build_value_range headers
                                        (row + Z.of_nat i)) (List.seq 0 1)).
    { cbn. now rewrite Z.add_0_r, Hname. }
    unfold perform. cbn [lift and_then run].
    destruct (respond ws (range name) w) as [[m | cells] w1].
    { exists 1%nat. cbn [outcome final trace].
      split; [cbn; lia|]. split; [exact Hone|].
      split; [cbn; lia | intros; discriminate]. }
    destruct (select_values_no_call item headers keys) as [[vs ->] | [key ->]];
      cbn [and_then run outcome final trace].
    2:{ exists 1%nat. cbn [outcome final trace].
      split; [cbn; lia|]. split; [exact Hone|].
      split; [cbn; lia | intros; discriminate]. }
    destruct (respond ws (update_cells (assign cells vs)) w1) as [[m | u] w2].
    { exists 1%nat. cbn [outcome final trace].
      split; [cbn; lia|]. split; [exact Hone|].
      split; [cbn; lia | intros; discriminate]. }
    destruct (IH (row + 1) w2) as [k [Hk [Hranges [Hwrites Hdone]]]].
    exists (S k). cbn [List.length outcome final trace].
    unfold ranges_of, writes_of in *. cbn [collect range_of write_of].
    split; [lia|]. split; [|split].
    + cbn [List.map List.seq]. rewrite Z.add_0_r, Hname.
      rewrite Hranges, <- seq_shift, map_map.
      apply (f_equal (cons (inr name))).
      apply map_ext. intros i. f_equal. lia.
    + cbn [List.length]. lia.
    + intros Hout. destruct (Hdone Hout) as [-> Hlen].
      cbn [List.length]. split; [reflexivity | now rewrite Hlen].
Qed.

(** X15: the rows that [build_sheet_by_keys] fills.  When no headers are
    given and the library returns [hs] for row 1, the ranges asked for are
    the row ranges of [hs] for the rows [start_row], [start_row + 1], ...,
    one per data item in order, up to the item at which the method stops;
    there are never more [update_cells] calls than ranges; and when the
    method returns, every item got its range and one update. *)
Theorem build_sheet_by_keys_rows {W : Type} (ws : worksheet W) (w w1 : W)
  (data : list dict) (start_row : Z) (keys headers : option (list value))
  (hs : list value) :
  is_falsy headers = true ->
  respond ws (row_values 1) w = (inr hs, w1) ->
  exists k : nat,
    (k <= List.length data)%nat /\
    List.map (@inr Py.exn string)
        (ranges_of (trace (run ws
           (build_sheet_by_keys data start_row keys headers) w))) =
      List.map (fun i => _build_value_range hs (start_row + Z.of_nat i))
               (List.seq 0 k) /\
    (List.length (writes_of (trace (run ws
        (build_sheet_by_keys data start_row keys headers) w))) <= k)%nat /\
    (outcome (run ws (build_sheet_by_keys data start_row keys headers) w)
       = inr tt ->
     k = List.length data /\
     List.length (writes_of (trace (run ws
        (build_sheet_by_keys data start_row keys headers) w)))
       = List.length data).
Proof.
  intros Hfalsy Hrow.
  unfold build_sheet_by_keys. rewrite Hfalsy.
  unfold perform. cbn [and_then].
  rewrite (run_do ws _ _ w w1 hs Hrow). cbn [and_then outcome final trace].
  set (ks := if is_falsy keys then hs else list_of keys).
  destruct (build_rows_calls ws hs ks data start_row w1)
    as [k [Hk [Hranges [Hwrites Hdone]]]].
  exists k. unfold ranges_of, writes_of in *. cbn [collect range_of write_of].
  repeat split; try assumption; apply Hdone; assumption.
Qed.

Lemma build_sheet_by_keys_rows_witness :
  exists k : nat,
    (k <= List.length [[(Str "name", Str "ann"); (Str "city", Str "rome")];
                       [(Str "name", Str "bob")]])%nat /\
    List.map (@inr Py.exn string)
        (ranges_of (trace (run memory_sheet
           (build_sheet_by_keys
              [[(Str "name", Str "ann"); (Str "city", Str "rome")];
               [(Str "name", Str "bob")]] 5 None None) []))) =
      List.map (fun i => _build_value_range [Str "name"; Str "city"]
                                            (5 + Z.of_nat i))
               (List.seq 0 k) /\
    (List.length (writes_of (trace (run memory_sheet
        (build_sheet_by_keys
           [[(Str "name", Str "ann"); (Str "city", Str "rome")];
            [(Str "name", Str "bob")]] 5 None None) []))) <= k)%nat /\
    (outcome (run memory_sheet
        (build_sheet_by_keys
           [[(Str "name", Str "ann"); (Str "city", Str "rome")];
            [(Str "name", Str "bob")]] 5 None None) []) = inr tt ->
     k = List.length [[(Str "name", Str "ann"); (Str "city", Str "rome")];
                      [(Str "name", Str "bob")]] /\
     List.length (writes_of (trace (run memory_sheet
        (build_sheet_by_keys
           [[(Str "name", Str "ann"); (Str "city", Str "rome")];
            [(Str "name", Str "bob")]] 5 None None) [])))
       = List.length [[(Str "name", Str "ann"); (Str "city", Str "rome")];
                      [(Str "name", Str "bob")]]).
Proof.
  apply (build_sheet_by_keys_rows memory_sheet [] []
           [[(Str "name", Str "ann"); (Str "city", Str "rome")];
            [(Str "name", Str "bob")]] 5 None None
           [Str "name"; Str "city"]).
  - reflexivity.
  - reflexivity.
Defined.

Example build_sheet_by_keys_on_memory_sheet :
  let r := run memory_sheet
             (build_sheet_by_keys
                [[(Str "name", Str "ann"); (Str "city", Str "rome")];
                 [(Str "name", Str "bob")]] 5 None None) [] in
  outcome r = inl (Sheet.KeyError (Str "city")) /\
  ranges_of (trace r) = ["A5:B5"; "A6:B6"] /\
  writes_of (trace r) = [[Cell 0 0 (Str "ann"); Cell 0 1 (Str "rome")]].
Proof. repeat split. Qed.





